(** * redeval.evaluators.faithfulness

    A shallow embedding of [src/redeval/evaluators/faithfulness.py] and the
    properties of its verdict mapping, its prompt rendering and its
    [evaluate] method.

    Python strings are sequences of Unicode code points; they are modelled
    as lists of code points.  Python values that travel through the
    evaluator (the JSON values extracted from the completion, the mapped
    verdict) are modelled by [pyval]; a call either returns a value or
    raises an exception ([result]).  The completion client is an external
    collaborator: its constructor and its two methods are parameters of the
    development, acting on an abstract outside world. *)

From Stdlib Require Import String Ascii NArith ZArith List Bool Lia.
From Stdlib Require Import Floats.SpecFloat.
From stdpp Require Import base decidable option list countable gmap.

Local Open Scope N_scope.
Local Set Warnings "-register-all".

(** ** Strings *)

Definition codepoint := N.
Definition str := list codepoint.

(** The code points of an ASCII literal of the source. *)
Definition cp (s : string) : str := map N_of_ascii (list_ascii_of_string s).

(** The double quote character, U+0022. *)
Definition dq : str := [34].

(** The line feed character, U+000A. *)
Definition nl : str := [10].

(** [sep.join(parts)]. *)
Fixpoint join (sep : str) (parts : list str) : str :=
  match parts with
  | [] => []
  | [p] => p
  | p :: rest => p ++ sep ++ join sep rest
  end.

(** [sub in s]: [sub] occurs in [s] as a contiguous run of code points. *)
Definition substring (sub s : str) : Prop :=
  exists before after, s = before ++ sub ++ after.

Fixpoint starts_with (sub s : str) : bool :=
  match sub, s with
  | [], _ => true
  | a :: sub', b :: s' => (a =? b) && starts_with sub' s'
  | _ :: _, [] => false
  end.

(** Executable version of [substring]. *)
Fixpoint is_substring (sub s : str) : bool :=
  starts_with sub s ||
  match s with
  | [] => false
  | _ :: s' => is_substring sub s'
  end.

(** *** Case mapping *)

Definition is_ascii (c : codepoint) : bool := c <? 128.

Definition is_ascii_upper (c : codepoint) : bool := (65 <=? c) && (c <=? 90).

(** Lower-casing of an ASCII code point: [A]..[Z] move to [a]..[z], the
    rest stays. *)
Definition ascii_lower (c : codepoint) : codepoint :=
  if is_ascii_upper c then c + 32 else c.

(** The lower-case letters that spell [yes] and [no]. *)
Definition is_verdict_letter (c : codepoint) : bool :=
  (c =? 121) || (c =? 101) || (c =? 115) || (c =? 110) || (c =? 111).

(** Two code points are the same ASCII letter up to case, or equal. *)
Definition same_ignoring_case (a b : codepoint) : bool :=
  (a =? b)
  || (is_ascii_upper a && (b =? a + 32))
  || (is_ascii_upper b && (a =? b + 32)).

(** Case-insensitive equality with an ASCII word, as the specification uses
    it for the verdicts: the strings have the same length and agree
    position by position up to the case of ASCII letters. *)
Fixpoint equals_ignoring_case (s t : str) : bool :=
  match s, t with
  | [], [] => true
  | a :: s', b :: t' => same_ignoring_case a b && equals_ignoring_case s' t'
  | _, _ => false
  end.

(** ** Python values and exceptions *)

Inductive pyval : Type :=
| PNone
| PBool (b : bool)
| PInt (z : Z)
| PFloat (f : spec_float)
| PStr (s : str)
| PList (items : list pyval)
| PDict (items : list (str * pyval)).

(** [type(v).__name__]. *)
Definition type_name (v : pyval) : str :=
  match v with
  | PNone => cp "NoneType"
  | PBool _ => cp "bool"
  | PInt _ => cp "int"
  | PFloat _ => cp "float"
  | PStr _ => cp "str"
  | PList _ => cp "list"
  | PDict _ => cp "dict"
  end.

Inductive exn : Type :=
| KeyError (key : str)
| AttributeError (type_of_object attribute : str)
| IndexError
| ValueError
| FieldOutsideFragment
| ClientRaised (class_name : str) (args : list pyval).

Inductive result (A : Type) : Type :=
| Returns (a : A)
| Raises (e : exn).

Arguments Returns {A} a.
Arguments Raises {A} e.

Definition map_result {A B : Type} (f : A -> B) (r : result A) : result B :=
  match r with
  | Returns a => Returns (f a)
  | Raises e => Raises e
  end.

Definition is_returns {A : Type} (r : result A) : bool :=
  match r with
  | Returns _ => true
  | Raises _ => false
  end.

(** ** [str.format]

    The fragment of [str.format] that the evaluator's template uses:
    automatically numbered replacement fields [{}] filled with string
    arguments, and the escapes [{{] and [}}].  A string argument is inserted
    as it is; arguments that are left over are ignored.  A replacement field
    when the arguments are used up raises [IndexError]; a lone brace raises
    [ValueError]; any other replacement field (a name, an index, a
    conversion or a format specification) is outside this fragment. *)
Fixpoint format (template : str) (args : list str) : result str :=
  match template with
  | [] => Returns []
  | c :: rest =>
    if c =? 123 then
      match rest with
      | [] => Raises ValueError
      | d :: rest' =>
        if d =? 123 then map_result (cons 123) (format rest' args)
        else if d =? 125 then
          match args with
          | a :: args' => map_result (app a) (format rest' args')
          | [] => Raises IndexError
          end
        else Raises FieldOutsideFragment
      end
    else if c =? 125 then
      match rest with
      | [] => Raises ValueError
      | d :: rest' =>
        if d =? 125 then map_result (cons 125) (format rest' args)
        else Raises ValueError
      end
    else map_result (cons c) (format rest args)
  end.

(** ** [FewShotExampleFaithfulness] *)

Module FewShotExampleFaithfulness.

Record t : Type := new {
  context : str;
  response : str;
  eval_function : str;
  eval_result : str;
  eval_reason : str
}.

(** The module and the qualified name of the class. *)
Definition module_name : str := cp "redeval.evaluators.faithfulness".
Definition qualname : str := cp "FewShotExampleFaithfulness".

(** [str(example)].  The class defines neither [__str__] nor [__repr__]
    and has no base class, so this is [object.__repr__]: the class's
    module and name and the address of the object, [0x] followed by
    [address], its hexadecimal digits.  The fields are not looked at. *)
Definition to_str (address : str) (example : t) : str :=
  cp "<" ++ module_name ++ cp "." ++ qualname ++ cp " object at 0x"
  ++ address ++ cp ">".

(** The values of the fields the example is meant to show. *)
Definition shown_values (example : t) : list str :=
  [context example; response example; eval_result example;
   eval_reason example].

End FewShotExampleFaithfulness.

Definition is_hex_digit (c : codepoint) : bool :=
  ((48 <=? c) && (c <=? 57))
  || ((97 <=? c) && (c <=? 102))
  || ((65 <=? c) && (c <=? 70)).

(** ** [Faithfulness]: the class constants *)

Definition SYSTEM_MESSAGE : str :=
  join nl
    [ [];
      cp "        You are an expert at evaluating whether the response can be inferred using ONLY the information provided as context.";
      cp "    " ].

Definition USER_MESSAGE_TEMPLATE : str :=
  join nl
    [ [];
      cp "        Let's think step by step.";
      cp "        1. Consider the following:";
      cp "        context: {}.";
      cp "        response:{}.";
      cp "        2. Determine if the response can be inferred purely from the context provided.";
      cp "        3. Provide a brief explanation of what information the response contained that was not provided to it in the context, labeled as 'explanation', leading up to a verdict (Yes/No) labeled as 'verdict'.";
      cp "        4. Return a JSON object in the following format: " ++ dq
        ++ cp "verdict" ++ dq ++ cp ": 'verdict', " ++ dq ++ cp "explanation"
        ++ dq ++ cp ": 'explanation'.";
      [];
      cp "        Here's are some examples:";
      cp "        {}";
      cp "    " ].

(** The only example of [get_few_shot_examples]. *)
Definition example1 : FewShotExampleFaithfulness.t :=
  FewShotExampleFaithfulness.new
    (cp "Y Combinator is a startup accelerator launched in March 2005. It has been used to launch more than 4,000 companies")
    (cp "125,000")
    (cp "is_response_faithful_to_context")
    (cp "No")
    (cp "The context does not contain any information to substantiate the response.").

(** [Faithfulness.get_few_shot_examples()].  [address] stands for the
    address at which the runtime allocates [example1]. *)
Definition get_few_shot_examples (address : str) : str :=
  join (nl ++ nl) [FewShotExampleFaithfulness.to_str address example1].

(** ** The completion client

    [OpenAICompletion] lives in another module of the package.  An object of
    the class is known here by its identity; its constructor and the two
    methods the evaluator calls act on the outside world (the network, the
    client's own state) and either return or raise. *)

Definition object_id := N.

(** One chat message: the dictionary with the keys [role] and [content]
    that the source builds. *)
Record message : Type := { role : str; content : str }.

Record OpenAICompletion (world : Type) : Type := {
  construct : pyval -> pyval -> world -> result object_id * world;
  get_completion_from_messages :
    object_id -> list message -> world -> result str * world;
  extract_json_from_response :
    object_id -> str -> world -> result (gmap str pyval) * world
}.

Arguments construct {world} _ _ _ _.
Arguments get_completion_from_messages {world} _ _ _ _.
Arguments extract_json_from_response {world} _ _ _ _.

(** The calls made to the client, in the order they are made. *)
Inductive event : Type :=
| Constructed (model open_ai_key : pyval)
| GetCompletion (client : object_id) (messages : list message)
| ExtractJson (client : object_id) (raw : str).

Definition is_get_completion (e : event) : bool :=
  match e with
  | GetCompletion _ _ => true
  | _ => false
  end.

Definition is_extract_json (e : event) : bool :=
  match e with
  | ExtractJson _ _ => true
  | _ => false
  end.

(** The attributes of a [Faithfulness] instance. *)
Record Faithfulness : Type := {
  openAIcompletion : object_id;
  examples : str
}.

(** What a method of the instance runs on: the instance, the outside world
    and the calls made to the client so far. *)
Record state (world : Type) : Type := {
  self : Faithfulness;
  env : world;
  calls : list event
}.

Arguments self {world} _.
Arguments env {world} _.
Arguments calls {world} _.

(** ** Sample collaborators

    A lower-casing of the code points outside ASCII with the two mappings
    of Unicode that lead into ASCII (KELVIN SIGN to [k], LATIN CAPITAL
    LETTER I WITH DOT ABOVE to [i] and a combining dot) and GREEK CAPITAL
    LETTER SIGMA, and clients with canned answers whose world counts the
    requests sent. *)

Definition sample_unicode_lower (s : str) (i : nat) (c : codepoint)
  : list codepoint :=
  if c =? 8490 then [107]
  else if c =? 304 then [105; 775]
  else if c =? 931 then [963]
  else [c].

Definition canned_client (raw : result str)
    (extracted : result (gmap str pyval)) : OpenAICompletion nat :=
  {| construct := fun _ _ w => (Returns 1, w);
     get_completion_from_messages := fun _ _ w => (raw, S w);
     extract_json_from_response := fun _ _ w => (extracted, w) |}.

Definition sample_instance : Faithfulness :=
  {| openAIcompletion := 1;
     examples := get_few_shot_examples (cp "7f3a5c0e9d10") |}.

Definition sample_state : state nat :=
  {| self := sample_instance; env := 0%nat; calls := [] |}.

Definition verdict_no : gmap str pyval :=
  <[cp "verdict" := PStr (cp "No")]>
    (<[cp "explanation" :=
         PStr (cp "The context does not substantiate the response.")]> ∅).

Definition verdict_yes : gmap str pyval :=
  <[cp "verdict" := PStr (cp "Yes")]>
    (<[cp "explanation" := PStr (cp "Fully supported.")]> ∅).

(** A client seen from its own side: [recording client] behaves as
    [client] does on its part of the world and keeps, beside it, the message
    lists that its [get_completion_from_messages] has been applied to, the
    latest last.  Nothing else writes to that record. *)
Definition received {world : Type} (w : world * list (list message))
  : list (list message) := snd w.

Definition recording {world : Type} (client : OpenAICompletion world)
  : OpenAICompletion (world * list (list message)) :=
  {| construct := fun model open_ai_key w =>
       let (r, w') := construct client model open_ai_key (fst w) in
       (r, (w', snd w));
     get_completion_from_messages := fun target messages w =>
       let (r, w') :=
         get_completion_from_messages client target messages (fst w) in
       (r, (w', snd w ++ [messages]));
     extract_json_from_response := fun target raw w =>
       let (r, w') := extract_json_from_response client target raw (fst w) in
       (r, (w', snd w)) |}.

(** ** The program *)

Section Evaluator.

(** Lower-casing of a code point outside ASCII, given the string it stands
    in and its position there (the lower case of a capital sigma depends on
    its neighbours).  The table of the Unicode database is not part of the
    repository. *)
Variable unicode_lower : str -> nat -> codepoint -> list codepoint.

(** The outside world and the client class. *)
Variable world : Type.
Variable client : OpenAICompletion world.

(** [str.lower()]. *)
Fixpoint lower_from (whole : str) (i : nat) (rest : str) : str :=
  match rest with
  | [] => []
  | c :: rest' =>
    (if is_ascii c then [ascii_lower c] else unicode_lower whole i c)
    ++ lower_from whole (S i) rest'
  end.

Definition lower (s : str) : str := lower_from s 0 s.

(** [verdict.lower()] for any value: only a string has the method. *)
Definition call_lower (verdict : pyval) : result str :=
  match verdict with
  | PStr s => Returns (lower s)
  | other => Raises (AttributeError (type_name other) (cp "lower"))
  end.

Definition and_then {A B : Type} (r : result A) (k : A -> result B)
  : result B :=
  match r with
  | Returns a => k a
  | Raises e => Raises e
  end.

(** [FaithfulnessFailure.verdict_to_int]. *)
Definition verdict_to_int (verdict : pyval) : result pyval :=
  and_then (call_lower verdict) (fun verdict =>
  let score :=
    if decide (verdict = cp "no") then PInt 1
    else if decide (verdict = cp "yes") then PInt 0
    else PNone in
  Returns score).

(** [FaithfulnessFailure.verdict_to_bool]. *)
Definition verdict_to_bool (verdict : pyval) : result pyval :=
  and_then (call_lower verdict) (fun verdict =>
  let score :=
    if decide (verdict = cp "no") then PBool true
    else if decide (verdict = cp "yes") then PBool false
    else PNone in
  Returns score).

(** [faith_eval[key]] on a dictionary. *)
Definition getitem (faith_eval : gmap str pyval) (key : str) : result pyval :=
  match faith_eval !! key with
  | Some v => Returns v
  | None => Raises (KeyError key)
  end.

(** [FaithfulnessFailure.compute]. *)
Definition compute (faith_eval : gmap str pyval) : result (pyval * pyval) :=
  and_then (getitem faith_eval (cp "verdict")) (fun verdict =>
  and_then (verdict_to_bool verdict) (fun is_faithfulness_failure =>
  and_then (getitem faith_eval (cp "explanation")) (fun explanation =>
  Returns (is_faithfulness_failure, explanation)))).

(** *** Methods of [Faithfulness]

    A method is a computation on [state]: it may read the instance, call
    the client, and it returns or raises. *)

Definition M (A : Type) : Type := state world -> result A * state world.

Definition ret {A : Type} (a : A) : M A := fun st => (Returns a, st).

Definition bind {A B : Type} (m : M A) (k : A -> M B) : M B :=
  fun st =>
    match m st with
    | (Returns a, st') => k a st'
    | (Raises e, st') => (Raises e, st')
    end.

Definition lift {A : Type} (r : result A) : M A := fun st => (r, st).

Definition getattr {A : Type} (field : Faithfulness -> A) : M A :=
  fun st => (Returns (field (self st)), st).

Definition call_get_completion_from_messages (target : object_id)
    (messages : list message) : M str :=
  fun st =>
    let (r, w) := get_completion_from_messages client target messages (env st) in
    (r, {| self := self st; env := w;
           calls := calls st ++ [GetCompletion target messages] |}).

Definition call_extract_json_from_response (target : object_id) (raw : str)
  : M (gmap str pyval) :=
  fun st =>
    let (r, w) := extract_json_from_response client target raw (env st) in
    (r, {| self := self st; env := w;
           calls := calls st ++ [ExtractJson target raw] |}).

Notation "'let*' x ':=' m 'in' k" := (bind m (fun x => k))
  (at level 10, x name, m at level 100, k at level 200, only parsing).

(** [Faithfulness.evaluate]. *)
Definition evaluate (context response : str) : M (pyval * pyval) :=
  let* few_shot := getattr examples in
  let* user_message :=
    lift (format USER_MESSAGE_TEMPLATE [context; response; few_shot]) in
  let system_message := SYSTEM_MESSAGE in
  let message :=
    [ {| role := cp "system"; content := system_message |};
      {| role := cp "user"; content := user_message |} ] in
  let* completion := getattr openAIcompletion in
  let* openai_response :=
    call_get_completion_from_messages completion message in
  let* completion := getattr openAIcompletion in
  let* openai_response_json :=
    call_extract_json_from_response completion openai_response in
  let* metric := lift (compute openai_response_json) in
  ret (fst metric, snd metric).

(** [Faithfulness.__init__], on the outside world and the calls made so
    far.  [address] is where the runtime allocates the few-shot example. *)
Definition __init__ (model open_ai_key : pyval) (address : str)
    (outside : world * list event)
  : result Faithfulness * (world * list event) :=
  let (r, w) := construct client model open_ai_key (fst outside) in
  let log := snd outside ++ [Constructed model open_ai_key] in
  match r with
  | Returns completion =>
    (Returns {| openAIcompletion := completion;
                examples := get_few_shot_examples address |}, (w, log))
  | Raises e => (Raises e, (w, log))
  end.

(** Several calls of [evaluate] in a row, whatever each one yields. *)
Fixpoint evaluate_all (requests : list (str * str)) (st : state world)
  : state world :=
  match requests with
  | [] => st
  | (context, response) :: rest =>
    evaluate_all rest (snd (evaluate context response st))
  end.

(** The user message that [evaluate] renders. *)
Definition user_message_of (context response few_shot : str) : result str :=
  format USER_MESSAGE_TEMPLATE [context; response; few_shot].


(** *** The rendered prompt

    The template cut at its three replacement fields, and what stands
    around the line of the examples. *)

Definition before_context : str :=
  join nl
    [ [];
      cp "        Let's think step by step.";
      cp "        1. Consider the following:";
      cp "        context: " ].

Definition before_response : str :=
  join nl [ cp "."; cp "        response:" ].

Definition before_examples_line : str :=
  join nl
    [ cp ".";
      cp "        2. Determine if the response can be inferred purely from the context provided.";
      cp "        3. Provide a brief explanation of what information the response contained that was not provided to it in the context, labeled as 'explanation', leading up to a verdict (Yes/No) labeled as 'verdict'.";
      cp "        4. Return a JSON object in the following format: " ++ dq
        ++ cp "verdict" ++ dq ++ cp ": 'verdict', " ++ dq ++ cp "explanation"
        ++ dq ++ cp ": 'explanation'.";
      [];
      cp "        Here's are some examples:" ].

Definition examples_indent : str := cp "        ".

Definition after_examples_line : str := cp "    ".

(** The template with [context], [response] and [few_shot] in the place of
    its first, second and third replacement field. *)
Definition rendered (context response few_shot : str) : str :=
  before_context ++ context ++ before_response ++ response
  ++ before_examples_line ++ nl ++ examples_indent ++ few_shot
  ++ nl ++ after_examples_line.

(** The rendered prompt up to the line of the examples. *)
Definition rendered_head (context response : str) : str :=
  before_context ++ context ++ before_response ++ response
  ++ before_examples_line.

(** The two messages that [evaluate] builds. *)
Definition messages_for (context response few_shot : str) : list message :=
  [ {| role := cp "system"; content := SYSTEM_MESSAGE |};
    {| role := cp "user"; content := rendered context response few_shot |} ].

(** The message lists handed to [get_completion_from_messages], call by
    call. *)
Fixpoint sent_messages (log : list event) : list (list message) :=
  match log with
  | [] => []
  | GetCompletion _ messages :: rest => messages :: sent_messages rest
  | _ :: rest => sent_messages rest
  end.

Definition count_get_completion (log : list event) : nat :=
  length (filter (fun e => is_get_completion e = true) log).

Definition has_char (c : codepoint) (s : str) : bool := existsb (N.eqb c) s.

(** No value that the example is meant to show occurs in [text]. *)
Definition shows_no_field (text : str) : Prop :=
  Forall (fun v => ~ substring v text)
    (FewShotExampleFaithfulness.shown_values example1).

(** *** Views of a score and of a value *)

(** The number of a score, as [int(score)] gives it: [True] is [1], [False]
    is [0]; [None] has no number and stays. *)
Definition score_to_int (score : pyval) : pyval :=
  match score with
  | PBool true => PInt 1
  | PBool false => PInt 0
  | other => other
  end.

Definition is_str (v : pyval) : bool :=
  match v with
  | PStr _ => true
  | _ => false
  end.

(** The three scores of the verdict mapping: [True], [False], [None]. *)
Definition is_score (v : pyval) : bool :=
  match v with
  | PBool _ | PNone => true
  | _ => false
  end.

(** ** The verdict mapping *)

Definition is_lower_letter (c : codepoint) : bool := (97 <=? c) && (c <=? 122).

Lemma verdict_letter_is_lower (c : codepoint) :
  is_verdict_letter c = true -> is_lower_letter c = true.
Proof.
  unfold is_verdict_letter, is_lower_letter. intros H.
  repeat (apply orb_prop in H; destruct H as [H | H]);
    apply N.eqb_eq in H; subst c; reflexivity.
Qed.

(** A code point that matches a lower-case letter up to case is ASCII and
    is lower-cased to that letter. *)
Lemma same_ignoring_case_lower (a b : codepoint) :
  is_lower_letter b = true -> same_ignoring_case a b = true ->
  is_ascii a = true /\ ascii_lower a = b.
Proof.
  unfold is_lower_letter, same_ignoring_case, is_ascii, ascii_lower,
    is_ascii_upper.
  intros Hb H. apply andb_prop in Hb. destruct Hb as [Hb1 Hb2].
  apply N.leb_le in Hb1. apply N.leb_le in Hb2.
  destruct (N.leb_spec 65 a), (N.leb_spec a 90); simpl in *;
    repeat match goal with
    | H : _ || _ = true |- _ => apply orb_prop in H; destruct H as [H | H]
    | H : _ && _ = true |- _ => apply andb_prop in H; destruct H as [? H]
    | H : (_ =? _) = true |- _ => apply N.eqb_eq in H
    | H : (_ <=? _) = true |- _ => apply N.leb_le in H
    | H : false = true |- _ => discriminate H
    end;
    split; try (apply N.ltb_lt); lia.
Qed.

(** The converse: a code point of ASCII whose lower case is a given
    lower-case letter matches that letter up to case. *)
Lemma ascii_lower_same_ignoring_case (a b : codepoint) :
  ascii_lower a = b -> same_ignoring_case a b = true.
Proof.
  unfold same_ignoring_case, ascii_lower. intros H.
  destruct (is_ascii_upper a) eqn:Hup.
  - subst b. rewrite (N.eqb_refl (a + 32)). simpl.
    rewrite orb_true_r. reflexivity.
  - subst b. rewrite N.eqb_refl. reflexivity.
Qed.

Lemma lower_from_of_equals_ignoring_case (whole : str) (s : str) :
  forall (i : nat) (t : str),
    forallb is_lower_letter t = true ->
    equals_ignoring_case s t = true ->
    lower_from whole i s = t.
Proof.
  induction s as [| a s IH]; intros i [| b t] Ht Heq; simpl in *;
    try discriminate; [reflexivity |].
  apply andb_prop in Ht. destruct Ht as [Hb Ht].
  apply andb_prop in Heq. destruct Heq as [Hab Heq].
  destruct (same_ignoring_case_lower a b Hb Hab) as [Hascii Hlow].
  rewrite Hascii. simpl. rewrite Hlow. f_equal. apply IH; assumption.
Qed.

(** [s.lower()] of a case variation of a lower-case ASCII word is the
    word. *)
Lemma lower_of_equals_ignoring_case (s t : str) :
  forallb is_lower_letter t = true ->
  equals_ignoring_case s t = true ->
  lower s = t.
Proof. apply lower_from_of_equals_ignoring_case. Qed.

(** C1.  For every string equal to [yes] up to case, [verdict_to_bool]
    returns [False] and [verdict_to_int] returns [0]; for every string
    equal to [no] up to case, [verdict_to_bool] returns [True] and
    [verdict_to_int] returns [1]. *)
Theorem verdict_yes_no (s : str) :
  (equals_ignoring_case s (cp "yes") = true ->
   verdict_to_bool (PStr s) = Returns (PBool false)
   /\ verdict_to_int (PStr s) = Returns (PInt 0))
  /\
  (equals_ignoring_case s (cp "no") = true ->
   verdict_to_bool (PStr s) = Returns (PBool true)
   /\ verdict_to_int (PStr s) = Returns (PInt 1)).
Proof.
  split; intros H;
    apply lower_of_equals_ignoring_case in H; try reflexivity;
    unfold verdict_to_bool, verdict_to_int; simpl; rewrite H;
    split; reflexivity.
Qed.

(** Unicode lower-cases no code point outside ASCII to nothing or to a run
    made only of the letters of [yes] and [no]: the result has a code point
    that is none of [y], [e], [s], [n], [o]. *)
Hypothesis unicode_lower_not_verdict :
  forall (s : str) (i : nat) (c : codepoint),
    is_ascii c = false ->
    existsb (fun x => negb (is_verdict_letter x)) (unicode_lower s i c) = true.

Lemma equals_ignoring_case_of_lower_from (whole : str) (s : str) :
  forall (i : nat) (t : str),
    forallb is_verdict_letter t = true ->
    lower_from whole i s = t ->
    equals_ignoring_case s t = true.
Proof.
  induction s as [| a s IH]; intros i t Ht Hlow; simpl in *.
  - subst t. reflexivity.
  - destruct (is_ascii a) eqn:Hascii.
    + simpl in Hlow. destruct t as [| b t]; [discriminate |].
      injection Hlow as Hb Hrest. simpl in Ht.
      apply andb_prop in Ht. destruct Ht as [_ Ht].
      rewrite (ascii_lower_same_ignoring_case a b Hb). simpl.
      apply (IH (S i)); assumption.
    + exfalso.
      pose proof (unicode_lower_not_verdict whole i a Hascii) as Hex.
      apply existsb_exists in Hex. destruct Hex as [x [Hin Hx]].
      assert (Hall : forall y, In y t -> is_verdict_letter y = true)
        by (apply forallb_forall; exact Ht).
      rewrite <- Hlow in Hall.
      rewrite (Hall x) in Hx; [discriminate |].
      apply in_or_app. left. exact Hin.
Qed.

(** Only the case variations of [yes] and [no] are lower-cased to [yes]
    and [no]. *)
Lemma lower_is_yes_or_no (s t : str) :
  forallb is_verdict_letter t = true ->
  lower s = t -> equals_ignoring_case s t = true.
Proof. apply equals_ignoring_case_of_lower_from. Qed.

(** C2.  For every string equal neither to [yes] nor to [no] up to case,
    [verdict_to_bool] and [verdict_to_int] both return [None], which is
    none of [True], [False], [0] and [1]; [compute] hands the [None] on as
    it is, it does not turn it into [False]. *)
Theorem verdict_unknown (s : str) :
  equals_ignoring_case s (cp "yes") = false ->
  equals_ignoring_case s (cp "no") = false ->
  verdict_to_bool (PStr s) = Returns PNone
  /\ verdict_to_int (PStr s) = Returns PNone
  /\ (forall v : pyval,
        In v [PBool true; PBool false; PInt 0; PInt 1] ->
        verdict_to_bool (PStr s) <> Returns v
        /\ verdict_to_int (PStr s) <> Returns v)
  /\ (forall (faith_eval : gmap str pyval) (explanation : pyval),
        faith_eval !! cp "verdict" = Some (PStr s) ->
        faith_eval !! cp "explanation" = Some explanation ->
        compute faith_eval = Returns (PNone, explanation)).
Proof.
  intros Hyes Hno.
  assert (Hb : verdict_to_bool (PStr s) = Returns PNone
               /\ verdict_to_int (PStr s) = Returns PNone).
  { unfold verdict_to_bool, verdict_to_int. simpl.
    destruct (decide (lower s = cp "no")) as [E | _].
    - apply lower_is_yes_or_no in E; [congruence | reflexivity].
    - destruct (decide (lower s = cp "yes")) as [E | _].
      + apply lower_is_yes_or_no in E; [congruence | reflexivity].
      + split; reflexivity. }
  destruct Hb as [Hb Hi].
  split; [exact Hb |]. split; [exact Hi |]. split.
  - intros v Hv. rewrite Hb, Hi. simpl in Hv.
    split; intros E; injection E as E; subst v; intuition discriminate.
  - intros faith_eval explanation Hv He.
    unfold compute, getitem. rewrite Hv. cbn [and_then].
    rewrite Hb. cbn [and_then]. rewrite He. reflexivity.
Qed.

(** ** [compute] *)

Lemma compute_of_strings (faith_eval : gmap str pyval)
    (verdict : str) (explanation : pyval) :
  faith_eval !! cp "verdict" = Some (PStr verdict) ->
  faith_eval !! cp "explanation" = Some explanation ->
  exists score,
    verdict_to_bool (PStr verdict) = Returns score
    /\ compute faith_eval = Returns (score, explanation).
Proof.
  intros Hv He. unfold compute, getitem. rewrite Hv. cbn [and_then].
  unfold verdict_to_bool at 2. cbn [call_lower and_then].
  eexists. split; [reflexivity |].
  unfold verdict_to_bool. cbn [call_lower and_then]. rewrite He. reflexivity.
Qed.

(** C4.  On a mapping with strings under [verdict] and [explanation],
    [compute] returns the pair of [verdict_to_bool] of the verdict and the
    explanation; with the verdict [No] and the explanation [X] that is
    [(True, X)], with [Yes] and [Y] it is [(False, Y)]. *)
Theorem compute_pair (faith_eval : gmap str pyval)
    (verdict explanation : str) :
  faith_eval !! cp "verdict" = Some (PStr verdict) ->
  faith_eval !! cp "explanation" = Some (PStr explanation) ->
  (exists score,
     verdict_to_bool (PStr verdict) = Returns score
     /\ compute faith_eval = Returns (score, PStr explanation))
  /\ (forall x : str,
        compute (<[cp "verdict" := PStr (cp "No")]>
                   (<[cp "explanation" := PStr x]> ∅))
        = Returns (PBool true, PStr x))
  /\ (forall y : str,
        compute (<[cp "verdict" := PStr (cp "Yes")]>
                   (<[cp "explanation" := PStr y]> ∅))
        = Returns (PBool false, PStr y)).
Proof.
  intros Hv He. split; [| split].
  - apply compute_of_strings; assumption.
  - intros x.
    destruct (compute_of_strings
                (<[cp "verdict" := PStr (cp "No")]>
                   (<[cp "explanation" := PStr x]> ∅))
                (cp "No") (PStr x)) as [score [Hs Hc]].
    + apply lookup_insert_eq.
    + rewrite lookup_insert_ne by discriminate. apply lookup_insert_eq.
    + rewrite Hc. vm_compute in Hs. injection Hs as <-. reflexivity.
  - intros y.
    destruct (compute_of_strings
                (<[cp "verdict" := PStr (cp "Yes")]>
                   (<[cp "explanation" := PStr y]> ∅))
                (cp "Yes") (PStr y)) as [score [Hs Hc]].
    + apply lookup_insert_eq.
    + rewrite lookup_insert_ne by discriminate. apply lookup_insert_eq.
    + rewrite Hc. vm_compute in Hs. injection Hs as <-. reflexivity.
Qed.

(** C10.  [compute] depends on the mapping only through the values under
    [verdict] and [explanation]: two mappings that agree on these two keys
    get the same result, returned or raised, whatever other keys they
    hold. *)
Theorem compute_depends_on_two_keys (d1 d2 : gmap str pyval) :
  d1 !! cp "verdict" = d2 !! cp "verdict" ->
  d1 !! cp "explanation" = d2 !! cp "explanation" ->
  compute d1 = compute d2.
Proof.
  intros Hv He. unfold compute, getitem. rewrite Hv, He. reflexivity.
Qed.

(** ** [evaluate] *)

(** The template has three replacement fields and no other brace, so
    formatting it with three strings returns, with the strings put in as
    they are. *)
Lemma format_user_message (context response few_shot : str) :
  format USER_MESSAGE_TEMPLATE [context; response; few_shot]
  = Returns (rendered context response few_shot).
Proof. vm_compute. reflexivity. Qed.

(** What one call of [evaluate] does, step by step. *)
Lemma evaluate_unfold (context response : str) (st : state world) :
  evaluate context response st =
  let target := openAIcompletion (self st) in
  let messages := messages_for context response (examples (self st)) in
  let (r1, w1) :=
    get_completion_from_messages client target messages (env st) in
  let log1 := calls st ++ [GetCompletion target messages] in
  match r1 with
  | Raises e => (Raises e, {| self := self st; env := w1; calls := log1 |})
  | Returns raw =>
    let (r2, w2) := extract_json_from_response client target raw w1 in
    let st2 := {| self := self st; env := w2;
                  calls := log1 ++ [ExtractJson target raw] |} in
    match r2 with
    | Raises e => (Raises e, st2)
    | Returns faith_eval =>
      (match compute faith_eval with
       | Returns metric => Returns (fst metric, snd metric)
       | Raises e => Raises e
       end, st2)
    end
  end.
Proof.
  unfold evaluate, bind, getattr, lift, ret,
    call_get_completion_from_messages, call_extract_json_from_response.
  rewrite format_user_message. unfold messages_for.
  cbv beta iota zeta.
  destruct (get_completion_from_messages client (openAIcompletion (self st))
              _ (env st)) as [[raw | e] w1]; [| reflexivity].
  cbv beta iota zeta. cbn [self env calls].
  destruct (extract_json_from_response client (openAIcompletion (self st))
              raw w1) as [[faith_eval | e] w2]; [| reflexivity].
  cbv beta iota zeta.
  destruct (compute faith_eval) as [metric | e]; reflexivity.
Qed.

Lemma sent_messages_app (log1 log2 : list event) :
  sent_messages (log1 ++ log2) = sent_messages log1 ++ sent_messages log2.
Proof.
  induction log1 as [| e log1 IH]; [reflexivity |].
  destruct e; simpl; rewrite IH; reflexivity.
Qed.

Lemma count_get_completion_app (log1 log2 : list event) :
  count_get_completion (log1 ++ log2)
  = (count_get_completion log1 + count_get_completion log2)%nat.
Proof.
  unfold count_get_completion. rewrite filter_app, length_app. reflexivity.
Qed.


(** C3.  Whatever the context and the response: when the completion call
    returns and the extraction of its JSON yields the mapping with the
    verdict [No] and the explanation [The context does not substantiate the
    response.], [evaluate] returns [True] with that explanation; when it
    yields the verdict [Yes] and the explanation [Fully supported.],
    [evaluate] returns [False] with that explanation. *)
Theorem evaluate_on_stubbed_client (context response : str)
    (st : state world) (raw : str) (w1 w2 : world) :
  get_completion_from_messages client (openAIcompletion (self st))
    (messages_for context response (examples (self st))) (env st)
  = (Returns raw, w1) ->
  (extract_json_from_response client (openAIcompletion (self st)) raw w1
   = (Returns verdict_no, w2) ->
   fst (evaluate context response st)
   = Returns (PBool true,
              PStr (cp "The context does not substantiate the response.")))
  /\
  (extract_json_from_response client (openAIcompletion (self st)) raw w1
   = (Returns verdict_yes, w2) ->
   fst (evaluate context response st)
   = Returns (PBool false, PStr (cp "Fully supported."))).
Proof.
  intros Hget. split; intros Hextract;
    rewrite evaluate_unfold; cbv zeta; rewrite Hget, Hextract;
    reflexivity.
Qed.


(** C6.  An error of the client or of the extracted mapping goes up to the
    caller of [evaluate] as it is: when [get_completion_from_messages]
    raises, [evaluate] raises the same error and calls nothing else; when
    [extract_json_from_response] raises, [evaluate] raises the same error;
    when the mapping has no [verdict], [evaluate] raises the [KeyError] of
    that key; when it has no [explanation], [evaluate] raises too, the
    [KeyError] of that key if the verdict is a string.  In none of these
    cases is a pair returned, and the client is called once per method at
    most. *)
Theorem evaluate_propagates_errors (context response : str)
    (st : state world) :
  let target := openAIcompletion (self st) in
  let messages := messages_for context response (examples (self st)) in
  let outcome := evaluate context response st in
  (forall (e : exn) (w1 : world),
     get_completion_from_messages client target messages (env st)
     = (Raises e, w1) ->
     fst outcome = Raises e
     /\ calls (snd outcome) = calls st ++ [GetCompletion target messages])
  /\
  (forall (raw : str) (w1 : world),
     get_completion_from_messages client target messages (env st)
     = (Returns raw, w1) ->
     calls (snd outcome)
     = calls st ++ [GetCompletion target messages; ExtractJson target raw]
     /\ (forall (e : exn) (w2 : world),
           extract_json_from_response client target raw w1 = (Raises e, w2) ->
           fst outcome = Raises e)
     /\ (forall (faith_eval : gmap str pyval) (w2 : world),
           extract_json_from_response client target raw w1
           = (Returns faith_eval, w2) ->
           (faith_eval !! cp "verdict" = None ->
            fst outcome = Raises (KeyError (cp "verdict")))
           /\ (faith_eval !! cp "explanation" = None ->
               is_returns (fst outcome) = false
               /\ (forall verdict : str,
                     faith_eval !! cp "verdict" = Some (PStr verdict) ->
                     fst outcome = Raises (KeyError (cp "explanation")))))).
Proof.
  intros target messages outcome. subst outcome target messages.
  rewrite evaluate_unfold. cbv zeta. split.
  - intros e w1 Hget. rewrite Hget. split; reflexivity.
  - intros raw w1 Hget. rewrite Hget.
    destruct (extract_json_from_response client _ raw w1)
      as [r2 w2] eqn:Hextract.
    split; [| split].
    + destruct r2; cbn [snd calls]; rewrite <- app_assoc; reflexivity.
    + intros e w2' E. injection E as -> _. reflexivity.
    + intros faith_eval w2' E. injection E as -> _. cbn [fst].
      unfold compute, getitem. split.
      * intros Hv. rewrite Hv. reflexivity.
      * intros He. rewrite He. split.
        -- destruct (faith_eval !! cp "verdict") as [v |]; [| reflexivity].
           cbn [and_then]. destruct (verdict_to_bool v); reflexivity.
        -- intros verdict Hv. rewrite Hv. reflexivity.
Qed.

Lemma count_get_completion_one (target : object_id)
    (messages : list message) :
  count_get_completion [GetCompletion target messages] = 1%nat.
Proof. reflexivity. Qed.

Lemma count_get_completion_none (target : object_id) (raw : str) :
  count_get_completion [ExtractJson target raw] = 0%nat.
Proof. reflexivity. Qed.

(** The world after a call: one application of
    [get_completion_from_messages] and, when it returns, one of
    [extract_json_from_response]. *)
Lemma evaluate_env (context response : str) (st : state world) :
  env (snd (evaluate context response st))
  = match get_completion_from_messages client (openAIcompletion (self st))
            (messages_for context response (examples (self st))) (env st)
    with
    | (Returns raw, w1) =>
      snd (extract_json_from_response client (openAIcompletion (self st))
             raw w1)
    | (Raises _, w1) => w1
    end.
Proof.
  rewrite evaluate_unfold. cbv zeta.
  destruct (get_completion_from_messages client _ _ (env st))
    as [[raw | e] w1]; [| reflexivity].
  destruct (extract_json_from_response client _ raw w1)
    as [[faith_eval | e] w2]; reflexivity.
Qed.

Lemma evaluate_keeps_self (context response : str) (st : state world) :
  self (snd (evaluate context response st)) = self st.
Proof.
  rewrite evaluate_unfold. cbv zeta.
  destruct (get_completion_from_messages client _ _ (env st))
    as [[raw | e] w1]; [| reflexivity].
  destruct (extract_json_from_response client _ raw w1)
    as [[faith_eval | e] w2]; reflexivity.
Qed.

(** C8.  The constructor sets [examples] to the few-shot text and
    [openAIcompletion] to the client it constructs; no call of [evaluate],
    and no run of calls, changes a field of the instance. *)
Theorem fields_set_once (model open_ai_key : pyval) (address : str)
    (outside outside' : world * list event) (instance : Faithfulness) :
  __init__ model open_ai_key address outside = (Returns instance, outside') ->
  examples instance = get_few_shot_examples address
  /\ fst (construct client model open_ai_key (fst outside))
     = Returns (openAIcompletion instance)
  /\ (forall (w : world) (log : list event) (requests : list (str * str)),
        self (evaluate_all requests
                {| self := instance; env := w; calls := log |})
        = instance)
  /\ (forall (st : state world) (context response : str),
        self (snd (evaluate context response st)) = self st).
Proof.
  intros Hinit. unfold __init__ in Hinit.
  destruct (construct client model open_ai_key (fst outside))
    as [[completion | e] w0]; [| discriminate].
  injection Hinit as <- _. repeat split.
  - intros w log requests.
    set (st := {| self := _; env := w; calls := log |}).
    change (self (evaluate_all requests st) = self st).
    generalize st. clear st.
    induction requests as [| [context response] rest IH]; intros st;
      [reflexivity |].
    cbn [evaluate_all]. rewrite IH. apply evaluate_keeps_self.
  - intros st context response. apply evaluate_keeps_self.
Qed.

(** ** The few-shot example text *)

Lemma substring_app_l (sub s t : str) :
  substring sub s -> substring sub (s ++ t).
Proof.
  intros [before [after ->]]. exists before, (after ++ t).
  rewrite <- !app_assoc. reflexivity.
Qed.

Lemma substring_app_r (sub s t : str) :
  substring sub t -> substring sub (s ++ t).
Proof.
  intros [before [after ->]]. exists (s ++ before), after.
  rewrite <- !app_assoc. reflexivity.
Qed.

Lemma substring_cons (sub t : str) (c : codepoint) :
  substring sub t -> substring sub (c :: t).
Proof. apply (substring_app_r sub [c] t). Qed.

(** A string occurs only where all its code points occur. *)
Lemma substring_in (k : codepoint) (sub s : str) :
  In k sub -> substring sub s -> In k s.
Proof.
  intros Hk [before [after ->]].
  apply in_or_app. right. apply in_or_app. left. exact Hk.
Qed.

(** A string without the code point [k] that occurs in [s ++ k :: t]
    occurs in [s] or in [t]. *)
Lemma substring_split_at (k : codepoint) (sub s t : str) :
  ~ In k sub -> substring sub (s ++ k :: t) ->
  substring sub s \/ substring sub t.
Proof.
  intros Hk [before [after E]].
  apply app_eq_app in E. destruct E as [l [[Es Ea] | [Eb Et]]].
  - apply app_eq_app in Ea.
    destruct Ea as [l' [[Esub Et] | [El Eafter]]].
    + left. subst s. destruct l' as [| c l'].
      * rewrite app_nil_r in Esub. subst l.
        exists before, []. rewrite app_nil_r. reflexivity.
      * exfalso. apply Hk. injection Et as <- _. subst sub.
        apply in_or_app. right. left. reflexivity.
    + left. subst s l. exists before, l'. reflexivity.
  - destruct l as [| c l].
    + simpl in Et. destruct sub as [| c sub].
      * right. exists [], t. reflexivity.
      * exfalso. apply Hk. injection Et as <- _. left. reflexivity.
    + right. injection Et as _ ->. exists l, after. reflexivity.
Qed.

Lemma has_char_true (k : codepoint) (s : str) :
  has_char k s = true -> In k s.
Proof.
  unfold has_char. intros H. apply existsb_exists in H.
  destruct H as [x [Hin Hx]]. apply N.eqb_eq in Hx. subst x. exact Hin.
Qed.

Lemma has_char_false (k : codepoint) (s : str) :
  has_char k s = false -> ~ In k s.
Proof.
  unfold has_char. intros H Hin.
  assert (E : existsb (N.eqb k) s = true).
  { apply existsb_exists. exists k. split; [exact Hin | apply N.eqb_refl]. }
  congruence.
Qed.

Lemma is_substring_starts (sub s : str) :
  starts_with sub s = true -> exists after, s = sub ++ after.
Proof.
  revert s. induction sub as [| a sub IH]; intros s H.
  - exists s. reflexivity.
  - destruct s as [| b s]; [discriminate |]. simpl in H.
    apply andb_prop in H. destruct H as [Hab H].
    apply N.eqb_eq in Hab. subst b.
    destruct (IH s H) as [after ->]. exists after. reflexivity.
Qed.

Lemma is_substring_sound (sub s : str) :
  is_substring sub s = true -> substring sub s.
Proof.
  induction s as [| b s IH]; simpl; intros H.
  - rewrite orb_false_r in H. apply is_substring_starts in H.
    destruct H as [after E]. exists [], after. exact E.
  - apply orb_prop in H. destruct H as [H | H].
    + apply is_substring_starts in H. destruct H as [after E].
      exists [], after. exact E.
    + apply substring_cons. apply IH. exact H.
Qed.

(** The text that stands for an object of the class has, besides the
    digits of the address, only the code points of the class's module and
    name and of the fixed words around them. *)
Lemma to_str_without (k : codepoint) (address : str)
    (example : FewShotExampleFaithfulness.t) :
  forallb is_hex_digit address = true ->
  is_hex_digit k = false ->
  has_char k (FewShotExampleFaithfulness.to_str [] example) = false ->
  ~ In k (FewShotExampleFaithfulness.to_str address example).
Proof.
  intros Hhex Hk Hfixed Hin.
  apply has_char_false in Hfixed. apply Hfixed.
  unfold FewShotExampleFaithfulness.to_str in *.
  repeat (apply in_app_or in Hin; destruct Hin as [Hin | Hin];
          [ repeat (try (apply in_or_app; left; exact Hin);
                    apply in_or_app; right) |]).
  - exfalso.
    assert (E : is_hex_digit k = true)
      by (apply (proj1 (forallb_forall is_hex_digit address) Hhex); exact Hin).
    congruence.
  - repeat (apply in_or_app; right). exact Hin.
Qed.

(** Each value the example is meant to show has a code point that is no
    hexadecimal digit and stands nowhere in the fixed part of the object
    text nor in the indentation; none has a line feed. *)
Lemma shown_value_marker (v : str) :
  In v (FewShotExampleFaithfulness.shown_values example1) ->
  has_char 10 v = false
  /\ exists k : codepoint,
       has_char k v = true
       /\ is_hex_digit k = false
       /\ has_char k examples_indent = false
       /\ has_char k (FewShotExampleFaithfulness.to_str [] example1) = false.
Proof.
  intros Hv. simpl in Hv.
  destruct Hv as [<- | [<- | [<- | [<- | []]]]];
    (split; [vm_compute; reflexivity |]).
  - exists 89. repeat split; vm_compute; reflexivity.
  - exists 44. repeat split; vm_compute; reflexivity.
  - exists 78. repeat split; vm_compute; reflexivity.
  - exists 84. repeat split; vm_compute; reflexivity.
Qed.

Lemma rendered_shape (context response few_shot : str) :
  rendered context response few_shot
  = rendered_head context response
    ++ 10 :: (examples_indent ++ few_shot) ++ 10 :: after_examples_line.
Proof.
  unfold rendered, rendered_head, nl. cbn [app].
  rewrite <- !app_assoc. reflexivity.
Qed.

Lemma get_few_shot_examples_is_to_str (address : str) :
  get_few_shot_examples address
  = FewShotExampleFaithfulness.to_str address example1.
Proof. reflexivity. Qed.

Lemma shown_value_not_in_examples (address : str) (v : str) :
  forallb is_hex_digit address = true ->
  In v (FewShotExampleFaithfulness.shown_values example1) ->
  ~ substring v (examples_indent ++ get_few_shot_examples address).
Proof.
  intros Hhex Hv Hsub.
  destruct (shown_value_marker v Hv) as [_ [k [Hkv [Hk [Hindent Hfixed]]]]].
  apply has_char_true in Hkv.
  pose proof (substring_in k _ _ Hkv Hsub) as Hin.
  apply in_app_or in Hin. destruct Hin as [Hin | Hin].
  - exact (has_char_false _ _ Hindent Hin).
  - rewrite get_few_shot_examples_is_to_str in Hin.
    exact (to_str_without k address example1 Hhex Hk Hfixed Hin).
Qed.

(** Where a value of the example occurs in a rendered prompt: before the
    line of the examples, on that line, or after it. *)
Lemma shown_value_in_rendered (context response few_shot v : str) :
  has_char 10 v = false ->
  substring v (rendered context response few_shot) <->
  substring v (rendered_head context response)
  \/ substring v (examples_indent ++ few_shot)
  \/ substring v after_examples_line.
Proof.
  intros Hnl. apply has_char_false in Hnl. rewrite rendered_shape. split.
  - intros H. apply (substring_split_at 10) in H; [| exact Hnl].
    destruct H as [H | H]; [left; exact H | right].
    apply (substring_split_at 10) in H; [| exact Hnl]. exact H.
  - intros [H | [H | H]].
    + apply substring_app_l. exact H.
    + apply substring_app_r, substring_cons, substring_app_l. exact H.
    + apply substring_app_r, substring_cons, substring_app_r,
        substring_cons. exact H.
Qed.

(** C9, as the code has it.  The text of the examples is the default text
    of the example object, so none of the values of the example (its
    context, its response, its result [No], its reason) occurs in it, and
    the examples add no occurrence of them to the prompt: such a value
    occurs in the rendered user message exactly when it occurs in the
    message rendered with no examples, that is, through the words of the
    template or through the context and the response of the call. *)
Theorem examples_add_no_field (address : str) :
  forallb is_hex_digit address = true ->
  let few_shot := get_few_shot_examples address in
  few_shot = FewShotExampleFaithfulness.to_str address example1
  /\ shows_no_field few_shot
  /\ (forall context response : str,
        exists prompt bare : str,
          user_message_of context response few_shot = Returns prompt
          /\ user_message_of context response [] = Returns bare
          /\ (forall v : str,
                In v (FewShotExampleFaithfulness.shown_values example1) ->
                substring v prompt <-> substring v bare)).
Proof.
  intros Hhex few_shot. subst few_shot.
  split; [reflexivity |]. split.
  - apply Forall_forall. intros v Hv Hsub.
    apply list_elem_of_In in Hv.
    apply (shown_value_not_in_examples address v Hhex Hv).
    apply substring_app_r. exact Hsub.
  - intros context response.
    exists (rendered context response (get_few_shot_examples address)),
           (rendered context response []).
    split; [apply format_user_message |].
    split; [apply format_user_message |].
    intros v Hv.
    destruct (shown_value_marker v Hv) as [Hnl _].
    rewrite !(shown_value_in_rendered _ _ _ v Hnl). split.
    + intros [H | [H | H]]; [left; exact H | | right; right; exact H].
      exfalso. exact (shown_value_not_in_examples address v Hhex Hv H).
    + intros [H | [H | H]]; [left; exact H | | right; right; exact H].
      right. left. rewrite app_nil_r in H. apply substring_app_l. exact H.
Qed.

(** ** Further properties of the verdict mapping *)

(** [verdict_to_int] is [verdict_to_bool] read as a number, on every value:
    [1] for [True], [0] for [False], [None] for [None], and the same error
    for a value that is no string. *)
Theorem verdict_to_int_matches_bool (verdict : pyval) :
  verdict_to_int verdict = map_result score_to_int (verdict_to_bool verdict).
Proof.
  unfold verdict_to_int, verdict_to_bool.
  destruct (call_lower verdict) as [s | e]; cbn [and_then map_result];
    [| reflexivity].
  destruct (decide (s = cp "no")); [reflexivity |].
  destruct (decide (s = cp "yes")); reflexivity.
Qed.

(** The failure score [True] (and [1]) is given to the case variations of
    [no] and to no other string, [False] (and [0]) to those of [yes] and to
    no other: a verdict with a blank or a full stop around it is not
    recognised. *)
Theorem verdict_score_iff (s : str) :
  (verdict_to_bool (PStr s) = Returns (PBool true)
   <-> equals_ignoring_case s (cp "no") = true)
  /\ (verdict_to_bool (PStr s) = Returns (PBool false)
      <-> equals_ignoring_case s (cp "yes") = true)
  /\ (verdict_to_int (PStr s) = Returns (PInt 1)
      <-> equals_ignoring_case s (cp "no") = true)
  /\ (verdict_to_int (PStr s) = Returns (PInt 0)
      <-> equals_ignoring_case s (cp "yes") = true).
Proof.
  assert (Hno : lower s = cp "no" <-> equals_ignoring_case s (cp "no") = true).
  { split; intros H.
    - apply lower_is_yes_or_no; [reflexivity | exact H].
    - apply lower_of_equals_ignoring_case; [reflexivity | exact H]. }
  assert (Hyes : lower s = cp "yes"
                 <-> equals_ignoring_case s (cp "yes") = true).
  { split; intros H.
    - apply lower_is_yes_or_no; [reflexivity | exact H].
    - apply lower_of_equals_ignoring_case; [reflexivity | exact H]. }
  unfold verdict_to_bool, verdict_to_int. cbn [call_lower and_then].
  rewrite <- Hno, <- Hyes.
  destruct (decide (lower s = cp "no")) as [E | E].
  - rewrite E. repeat split; intros H; try reflexivity; discriminate H.
  - destruct (decide (lower s = cp "yes")) as [E' | E'].
    + repeat split; intros H; try reflexivity; try assumption;
        try discriminate H; contradiction.
    + repeat split; intros H; try discriminate H; contradiction.
Qed.

(** ** Further properties of [evaluate] *)

(** When both calls of the client return, the outcome of [evaluate] is the
    outcome of [compute] on the extracted mapping, returned or raised, and
    the world is left as the extraction left it. *)
Theorem evaluate_is_compute (context response : str) (st : state world)
    (raw : str) (w1 w2 : world) (faith_eval : gmap str pyval) :
  get_completion_from_messages client (openAIcompletion (self st))
    (messages_for context response (examples (self st))) (env st)
  = (Returns raw, w1) ->
  extract_json_from_response client (openAIcompletion (self st)) raw w1
  = (Returns faith_eval, w2) ->
  fst (evaluate context response st) = compute faith_eval
  /\ env (snd (evaluate context response st)) = w2.
Proof.
  intros Hget Hextract. rewrite evaluate_unfold. cbv zeta.
  rewrite Hget, Hextract. cbn [fst snd env]. split; [| reflexivity].
  destruct (compute faith_eval) as [[score explanation] | e]; reflexivity.
Qed.

(** A verdict that is no string (a JSON boolean, number, null, array or
    object) makes [evaluate] raise [AttributeError] for the method [lower]
    of the value's type, whether or not the mapping has an explanation,
    after both calls of the client have been made. *)
Theorem evaluate_rejects_non_string_verdict (context response : str)
    (st : state world) (raw : str) (w1 w2 : world)
    (faith_eval : gmap str pyval) (verdict : pyval) :
  get_completion_from_messages client (openAIcompletion (self st))
    (messages_for context response (examples (self st))) (env st)
  = (Returns raw, w1) ->
  extract_json_from_response client (openAIcompletion (self st)) raw w1
  = (Returns faith_eval, w2) ->
  faith_eval !! cp "verdict" = Some verdict ->
  is_str verdict = false ->
  fst (evaluate context response st)
  = Raises (AttributeError (type_name verdict) (cp "lower"))
  /\ calls (snd (evaluate context response st))
     = calls st
       ++ [GetCompletion (openAIcompletion (self st))
             (messages_for context response (examples (self st)));
           ExtractJson (openAIcompletion (self st)) raw].
Proof.
  intros Hget Hextract Hverdict Hstr. rewrite evaluate_unfold. cbv zeta.
  rewrite Hget, Hextract. cbn [fst snd calls]. split.
  - unfold compute, getitem. rewrite Hverdict. cbn [and_then].
    destruct verdict; try discriminate Hstr; reflexivity.
  - rewrite <- app_assoc. reflexivity.
Qed.

(** [evaluate] returns a pair only when both calls of the client returned
    and the extracted mapping has a string under [verdict] and a value
    under [explanation]; the first component is then the score of that
    verdict, one of [True], [False] and [None], and the second is that
    value as it is. *)
Theorem evaluate_returns_only_well_formed (context response : str)
    (st : state world) (score explanation : pyval) :
  fst (evaluate context response st) = Returns (score, explanation) ->
  is_score score = true
  /\ exists (raw : str) (w1 w2 : world) (faith_eval : gmap str pyval)
       (verdict : str),
       get_completion_from_messages client (openAIcompletion (self st))
         (messages_for context response (examples (self st))) (env st)
       = (Returns raw, w1)
       /\ extract_json_from_response client (openAIcompletion (self st))
            raw w1
          = (Returns faith_eval, w2)
       /\ faith_eval !! cp "verdict" = Some (PStr verdict)
       /\ faith_eval !! cp "explanation" = Some explanation
       /\ verdict_to_bool (PStr verdict) = Returns score.
Proof.
  rewrite evaluate_unfold. cbv zeta.
  destruct (get_completion_from_messages client _ _ (env st))
    as [[raw | e] w1] eqn:Hget; [| discriminate].
  destruct (extract_json_from_response client _ raw w1)
    as [[faith_eval | e] w2] eqn:Hextract; [| discriminate].
  cbn [fst]. unfold compute, getitem.
  destruct (faith_eval !! cp "verdict") as [v |] eqn:Hv; [| discriminate].
  cbn [and_then]. destruct v as [| | | | verdict | |]; try discriminate.
  destruct (faith_eval !! cp "explanation") as [x |] eqn:Hx.
  - unfold verdict_to_bool at 1. cbn [call_lower and_then fst snd].
    intros E. injection E as Hscore Hexplanation. subst x. split.
    + subst score. destruct (decide (lower verdict = cp "no"));
        [reflexivity |].
      destruct (decide (lower verdict = cp "yes")); reflexivity.
    + exists raw, w1, w2, faith_eval, verdict.
      repeat split; try reflexivity; try assumption.
      unfold verdict_to_bool. cbn [call_lower and_then].
      rewrite Hscore. reflexivity.
  - unfold verdict_to_bool. cbn [call_lower and_then]. discriminate.
Qed.

(** The log of one call: the call of [get_completion_from_messages] with
    the two messages, then at most the extraction. *)
Lemma evaluate_log (context response : str) (st : state world) :
  exists rest : list event,
    calls (snd (evaluate context response st))
    = calls st
      ++ GetCompletion (openAIcompletion (self st))
           (messages_for context response (examples (self st))) :: rest
    /\ sent_messages rest = []
    /\ count_get_completion rest = 0%nat.
Proof.
  rewrite evaluate_unfold. cbv zeta.
  destruct (get_completion_from_messages client _ _ (env st))
    as [[raw | e] w1]; cbn [snd calls].
  - exists [ExtractJson (openAIcompletion (self st)) raw].
    split; [| split; reflexivity].
    destruct (extract_json_from_response client _ raw w1)
      as [[faith_eval | e] w2]; cbn [snd calls];
      rewrite <- app_assoc; reflexivity.
  - exists []. split; [reflexivity | split; reflexivity].
Qed.

(** The log of a run of calls: one message list per request, in order. *)
Lemma evaluate_all_log (requests : list (str * str))
    (st : state world) :
  sent_messages (calls (evaluate_all requests st))
  = sent_messages (calls st)
    ++ map (fun request =>
              messages_for (fst request) (snd request) (examples (self st)))
         requests
  /\ count_get_completion (calls (evaluate_all requests st))
     = (count_get_completion (calls st) + length requests)%nat.
Proof.
  revert st. induction requests as [| [context response] rest IH];
    intros st.
  - cbn [evaluate_all map length]. rewrite app_nil_r. split; [reflexivity | lia].
  - cbn [evaluate_all map length fst snd].
    destruct (IH (evaluate context response st).2) as [IHsent IHcount].
    destruct (evaluate_log context response st) as [tl [Hlog [Hsent Hcount]]].
    rewrite evaluate_keeps_self in IHsent. split.
    + rewrite IHsent, Hlog. rewrite sent_messages_app.
      cbn [sent_messages]. rewrite Hsent. rewrite <- app_assoc.
      reflexivity.
    + rewrite IHcount, Hlog.
      change (GetCompletion (openAIcompletion (self st))
                (messages_for context response (examples (self st))) :: tl)
        with ([GetCompletion (openAIcompletion (self st))
                 (messages_for context response (examples (self st)))]
              ++ tl).
      rewrite !count_get_completion_app, count_get_completion_one, Hcount.
      lia.
Qed.

(** ** Further properties of the prompt *)

(** The text of the examples carries the address of the example object:
    instances whose example object sits at different addresses have
    different examples and send different user messages for the same
    context and response. *)
Theorem prompt_depends_on_address (address1 address2 : str) :
  address1 <> address2 ->
  get_few_shot_examples address1 <> get_few_shot_examples address2
  /\ (forall context response : str,
        user_message_of context response (get_few_shot_examples address1)
        <> user_message_of context response
             (get_few_shot_examples address2)).
Proof.
  intros Hne.
  assert (Hexamples : get_few_shot_examples address1
                      <> get_few_shot_examples address2).
  { rewrite !get_few_shot_examples_is_to_str.
    unfold FewShotExampleFaithfulness.to_str. intros E.
    apply (app_inv_head (cp "<")) in E.
    apply (app_inv_head FewShotExampleFaithfulness.module_name) in E.
    apply (app_inv_head (cp ".")) in E.
    apply (app_inv_head FewShotExampleFaithfulness.qualname) in E.
    apply (app_inv_head (cp " object at 0x")) in E.
    apply (app_inv_tail (cp ">")) in E.
    exact (Hne E). }
  split; [exact Hexamples |].
  intros context response. unfold user_message_of.
  rewrite !format_user_message, !rendered_shape. intros E.
  apply (f_equal (fun outcome => match outcome with
                                 | Returns text => text
                                 | Raises _ => []
                                 end)) in E.
  cbv beta iota in E.
  apply (app_inv_head (rendered_head context response)) in E.
  apply (f_equal (@tail codepoint)) in E. cbn [tail] in E.
  apply (app_inv_tail (10 :: after_examples_line)) in E.
  apply (app_inv_head examples_indent) in E.
  exact (Hexamples E).
Qed.

(** Nothing is cut off and nothing is added: the user message has the code
    points of the template, without the six braces of its three fields,
    and those of the context, the response and the examples. *)
Theorem user_message_length (context response few_shot : str) :
  exists user_message : str,
    user_message_of context response few_shot = Returns user_message
    /\ (length user_message + 6
        = length USER_MESSAGE_TEMPLATE + length context + length response
          + length few_shot)%nat
    /\ length USER_MESSAGE_TEMPLATE = 565%nat.
Proof.
  exists (rendered context response few_shot).
  split; [apply format_user_message |]. split; [| vm_compute; reflexivity].
  unfold rendered. rewrite !length_app.
  generalize (length context), (length response), (length few_shot).
  intros n m k. vm_compute length. lia.
Qed.

(** The arguments go to their labelled places: around fixed text, the
    context stands right after the label [context: ], the response right
    after the label [response:], each followed by a full stop, and the
    examples stand on the last but one line. *)
Theorem user_message_layout :
  exists head middle : str,
    forall context response few_shot : str,
      user_message_of context response few_shot
      = Returns (head ++ cp "context: " ++ context ++ cp "." ++ nl
                 ++ cp "        response:" ++ response ++ cp "." ++ nl
                 ++ middle ++ nl ++ cp "        " ++ few_shot ++ nl
                 ++ cp "    ").
Proof.
  exists (join nl [ []; cp "        Let's think step by step.";
                    cp "        1. Consider the following:";
                    cp "        " ]).
  exists (join nl
            [ cp "        2. Determine if the response can be inferred purely from the context provided.";
              cp "        3. Provide a brief explanation of what information the response contained that was not provided to it in the context, labeled as 'explanation', leading up to a verdict (Yes/No) labeled as 'verdict'.";
              cp "        4. Return a JSON object in the following format: "
                ++ dq ++ cp "verdict" ++ dq ++ cp ": 'verdict', " ++ dq
                ++ cp "explanation" ++ dq ++ cp ": 'explanation'.";
              [];
              cp "        Here's are some examples:" ]).
  intros context response few_shot. unfold user_message_of.
  vm_compute. reflexivity.
Qed.

(** The arguments are put in as they are, with nothing to mark where they
    end: a context that goes on with the text between the two fields gives
    the same user message as the shorter context with the rest moved to the
    front of the response. *)
Theorem user_message_not_delimited (x y z few_shot : str) :
  let between := cp "." ++ nl ++ cp "        response:" in
  user_message_of (x ++ between ++ y) z few_shot
  = user_message_of x (y ++ between ++ z) few_shot
  /\ x ++ between ++ y <> x.
Proof.
  intros between. split.
  - unfold user_message_of. rewrite !format_user_message. f_equal.
    unfold rendered.
    change before_response with between.
    rewrite <- !app_assoc. reflexivity.
  - subst between. intros E. apply (f_equal (@length codepoint)) in E.
    rewrite !length_app in E.
    change (length (cp ".")) with 1%nat in E. lia.
Qed.

End Evaluator.

(** ** The calls as the client sees them *)

Lemma evaluate_recording
    (unicode_lower : str -> nat -> codepoint -> list codepoint)
    (world : Type) (client : OpenAICompletion world)
    (context response : str) (st : state (world * list (list message))) :
  received (env (snd (evaluate unicode_lower (world * list (list message))
                        (recording client) context response st)))
  = received (env st)
    ++ [messages_for context response (examples (self st))].
Proof.
  rewrite evaluate_env. unfold recording.
  cbn [get_completion_from_messages extract_json_from_response].
  destruct (get_completion_from_messages client (openAIcompletion (self st))
              (messages_for context response (examples (self st)))
              (fst (env st))) as [[raw | e] w1]; [| reflexivity].
  destruct (extract_json_from_response client (openAIcompletion (self st))
              raw (fst (w1, snd (env st)
                     ++ [messages_for context response (examples (self st))])))
    as [[faith_eval | e] w2]; reflexivity.
Qed.

Lemma evaluate_counted
    (unicode_lower : str -> nat -> codepoint -> list codepoint)
    (world : Type) (client : OpenAICompletion world)
    (context response : str) (st : state world) :
  count_get_completion
    (calls (snd (evaluate unicode_lower world client context response st)))
  = S (count_get_completion (calls st)).
Proof.
  destruct (evaluate_log unicode_lower world client context response st)
    as [rest [Hlog [_ Hcount]]].
  rewrite Hlog.
  change (GetCompletion (openAIcompletion (self st))
            (messages_for context response (examples (self st))) :: rest)
    with ([GetCompletion (openAIcompletion (self st))
             (messages_for context response (examples (self st)))] ++ rest).
  rewrite !count_get_completion_app, count_get_completion_one, Hcount. lia.
Qed.

(** C7.  Every call of [evaluate], whatever its outcome, calls
    [get_completion_from_messages] exactly once.  For every client: the
    world that the call leaves is the one left by one application of the
    client's [get_completion_from_messages] to the two messages, followed by
    one application of [extract_json_from_response] when the first returns;
    the log has one more call of it; and a client that records the message
    lists it receives has received exactly one more, those two messages. *)
Theorem evaluate_calls_completion_once
    (unicode_lower : str -> nat -> codepoint -> list codepoint)
    (world : Type) (client : OpenAICompletion world)
    (context response : str) :
  (forall st : state world,
     let target := openAIcompletion (self st) in
     let messages := messages_for context response (examples (self st)) in
     let after :=
       snd (evaluate unicode_lower world client context response st) in
     env after
     = match get_completion_from_messages client target messages (env st)
       with
       | (Returns raw, w1) =>
         snd (extract_json_from_response client target raw w1)
       | (Raises _, w1) => w1
       end
     /\ count_get_completion (calls after)
        = S (count_get_completion (calls st)))
  /\ (forall st : state (world * list (list message)),
        let after :=
          snd (evaluate unicode_lower (world * list (list message))
                 (recording client) context response st) in
        received (env after)
        = received (env st)
          ++ [messages_for context response (examples (self st))]
        /\ length (received (env after))
           = S (length (received (env st)))).
Proof.
  split.
  - intros st target messages after. subst target messages after. split.
    + apply evaluate_env.
    + apply evaluate_counted.
  - intros st after. subst after.
    pose proof (evaluate_recording unicode_lower world client context
                  response st) as Hreceived.
    split; [exact Hreceived |].
    rewrite Hreceived, length_app. cbn [length]. lia.
Qed.

(** Nothing is cached: a run of calls of [evaluate] hands one message list
    to the client per call, in the order of the calls, each built from the
    context and the response of its call and the examples of the instance,
    also when a request comes again or an earlier call raised.  This is
    what a client that records the message lists it receives has received,
    and what the log of calls shows for every client. *)
Theorem evaluate_all_sends_each
    (unicode_lower : str -> nat -> codepoint -> list codepoint)
    (world : Type) (client : OpenAICompletion world)
    (requests : list (str * str)) :
  (forall st : state (world * list (list message)),
     let after :=
       evaluate_all unicode_lower (world * list (list message))
         (recording client) requests st in
     received (env after)
     = received (env st)
       ++ map (fun request =>
                 messages_for (fst request) (snd request)
                   (examples (self st)))
            requests
     /\ length (received (env after))
        = (length (received (env st)) + length requests)%nat)
  /\ (forall st : state world,
        let after := evaluate_all unicode_lower world client requests st in
        sent_messages (calls after)
        = sent_messages (calls st)
          ++ map (fun request =>
                    messages_for (fst request) (snd request)
                      (examples (self st)))
               requests
        /\ count_get_completion (calls after)
           = (count_get_completion (calls st) + length requests)%nat).
Proof.
  split.
  - assert (Hreceived :
      forall st : state (world * list (list message)),
        received (env (evaluate_all unicode_lower
                         (world * list (list message)) (recording client)
                         requests st))
        = received (env st)
          ++ map (fun request =>
                    messages_for (fst request) (snd request)
                      (examples (self st)))
               requests).
    { induction requests as [| [context response] rest IH]; intros st.
      - cbn [evaluate_all map]. rewrite app_nil_r. reflexivity.
      - cbn [evaluate_all map fst snd]. rewrite IH.
        rewrite evaluate_recording, evaluate_keeps_self.
        rewrite <- app_assoc. reflexivity. }
    intros st after. subst after. split; [apply Hreceived |].
    rewrite Hreceived, length_app, length_map. reflexivity.
  - intros st after. subst after. apply evaluate_all_log.
Qed.

(** ** The statements at sample inputs *)

Lemma sample_unicode_lower_not_verdict (s : str) (i : nat) (c : codepoint) :
  is_ascii c = false ->
  existsb (fun x => negb (is_verdict_letter x)) (sample_unicode_lower s i c)
  = true.
Proof.
  intros Hc. unfold sample_unicode_lower.
  destruct (N.eqb_spec c 8490); [reflexivity |].
  destruct (N.eqb_spec c 304); [reflexivity |].
  destruct (N.eqb_spec c 931); [reflexivity |].
  cbn [existsb]. rewrite orb_false_r.
  unfold is_ascii in Hc. apply N.ltb_ge in Hc.
  unfold is_verdict_letter.
  repeat match goal with
  | |- context [ c =? ?k ] =>
    destruct (N.eqb_spec c k); [exfalso; lia |]
  end.
  reflexivity.
Qed.

Lemma verdict_yes_no_witness :
  (verdict_to_bool sample_unicode_lower (PStr (cp "YeS"))
   = Returns (PBool false)
   /\ verdict_to_int sample_unicode_lower (PStr (cp "YeS"))
      = Returns (PInt 0))
  /\ (verdict_to_bool sample_unicode_lower (PStr (cp "nO"))
      = Returns (PBool true)
      /\ verdict_to_int sample_unicode_lower (PStr (cp "nO"))
         = Returns (PInt 1)).
Proof.
  split.
  - apply (proj1 (verdict_yes_no sample_unicode_lower (cp "YeS"))).
    reflexivity.
  - apply (proj2 (verdict_yes_no sample_unicode_lower (cp "nO"))).
    reflexivity.
Defined.

Lemma verdict_unknown_witness :
  (verdict_to_bool sample_unicode_lower (PStr (cp "maybe")) = Returns PNone
   /\ verdict_to_int sample_unicode_lower (PStr (cp "maybe")) = Returns PNone)
  /\ (verdict_to_bool sample_unicode_lower (PStr []) = Returns PNone
      /\ verdict_to_int sample_unicode_lower (PStr []) = Returns PNone)
  /\ (verdict_to_bool sample_unicode_lower (PStr [110; 111; 8490])
      = Returns PNone
      /\ verdict_to_int sample_unicode_lower (PStr [110; 111; 8490])
         = Returns PNone).
Proof.
  split; [| split].
  - destruct (verdict_unknown sample_unicode_lower
                sample_unicode_lower_not_verdict (cp "maybe")
                eq_refl eq_refl) as [Hb [Hi _]].
    split; assumption.
  - destruct (verdict_unknown sample_unicode_lower
                sample_unicode_lower_not_verdict []
                eq_refl eq_refl) as [Hb [Hi _]].
    split; assumption.
  - destruct (verdict_unknown sample_unicode_lower
                sample_unicode_lower_not_verdict [110; 111; 8490]
                eq_refl eq_refl) as [Hb [Hi _]].
    split; assumption.
Defined.

Lemma evaluate_on_stubbed_client_witness :
  fst (evaluate sample_unicode_lower nat
         (canned_client (Returns (cp "raw")) (Returns verdict_no))
         (cp "Y Combinator is a startup accelerator launched in March 2005.")
         (cp "125,000") sample_state)
  = Returns (PBool true,
             PStr (cp "The context does not substantiate the response."))
  /\ fst (evaluate sample_unicode_lower nat
            (canned_client (Returns (cp "raw")) (Returns verdict_yes))
            (cp "Y Combinator is a startup accelerator launched in March 2005.")
            (cp "125,000") sample_state)
     = Returns (PBool false, PStr (cp "Fully supported.")).
Proof.
  split.
  - apply (proj1 (evaluate_on_stubbed_client sample_unicode_lower nat
                    (canned_client (Returns (cp "raw")) (Returns verdict_no))
                    _ _ sample_state (cp "raw") 1%nat 1%nat eq_refl)).
    reflexivity.
  - apply (proj2 (evaluate_on_stubbed_client sample_unicode_lower nat
                    (canned_client (Returns (cp "raw")) (Returns verdict_yes))
                    _ _ sample_state (cp "raw") 1%nat 1%nat eq_refl)).
    reflexivity.
Defined.

Lemma compute_pair_witness :
  exists score : pyval,
    verdict_to_bool sample_unicode_lower (PStr (cp "No")) = Returns score
    /\ compute sample_unicode_lower verdict_no
       = Returns (score,
                  PStr (cp "The context does not substantiate the response.")).
Proof.
  apply (compute_pair sample_unicode_lower verdict_no (cp "No")
           (cp "The context does not substantiate the response.")).
  - vm_compute. reflexivity.
  - vm_compute. reflexivity.
Defined.

Lemma compute_depends_on_two_keys_witness :
  compute sample_unicode_lower verdict_no
  = compute sample_unicode_lower
      (<[cp "confidence" := PInt 3]> verdict_no).
Proof.
  apply compute_depends_on_two_keys.
  - vm_compute. reflexivity.
  - vm_compute. reflexivity.
Defined.

Lemma evaluate_propagates_errors_witness :
  fst (evaluate sample_unicode_lower nat
         (canned_client (Raises (ClientRaised (cp "RateLimitError") []))
            (Returns verdict_no))
         (cp "context") (cp "response") sample_state)
  = Raises (ClientRaised (cp "RateLimitError") [])
  /\ fst (evaluate sample_unicode_lower nat
            (canned_client (Returns (cp "no json here"))
               (Raises (ClientRaised (cp "JSONDecodeError") [])))
            (cp "context") (cp "response") sample_state)
     = Raises (ClientRaised (cp "JSONDecodeError") [])
  /\ fst (evaluate sample_unicode_lower nat
            (canned_client (Returns (cp "raw"))
               (Returns (<[cp "explanation" := PStr (cp "why")]> ∅)))
            (cp "context") (cp "response") sample_state)
     = Raises (KeyError (cp "verdict"))
  /\ fst (evaluate sample_unicode_lower nat
            (canned_client (Returns (cp "raw"))
               (Returns (<[cp "verdict" := PStr (cp "Yes")]> ∅)))
            (cp "context") (cp "response") sample_state)
     = Raises (KeyError (cp "explanation")).
Proof.
  split; [| split; [| split]].
  - apply (proj1 (evaluate_propagates_errors sample_unicode_lower nat
                    (canned_client
                       (Raises (ClientRaised (cp "RateLimitError") []))
                       (Returns verdict_no))
                    (cp "context") (cp "response") sample_state)
             _ 1%nat).
    reflexivity.
  - refine (proj1 (proj2 (proj2 (evaluate_propagates_errors
             sample_unicode_lower nat
             (canned_client (Returns (cp "no json here"))
                (Raises (ClientRaised (cp "JSONDecodeError") [])))
             (cp "context") (cp "response") sample_state)
             (cp "no json here") 1%nat eq_refl)) _ 1%nat _).
    reflexivity.
  - refine (proj1 (proj2 (proj2 (proj2 (evaluate_propagates_errors
             sample_unicode_lower nat
             (canned_client (Returns (cp "raw"))
                (Returns (<[cp "explanation" := PStr (cp "why")]> ∅)))
             (cp "context") (cp "response") sample_state)
             (cp "raw") 1%nat eq_refl)) _ 1%nat eq_refl) _).
    vm_compute. reflexivity.
  - refine (proj2 (proj2 (proj2 (proj2 (proj2 (evaluate_propagates_errors
             sample_unicode_lower nat
             (canned_client (Returns (cp "raw"))
                (Returns (<[cp "verdict" := PStr (cp "Yes")]> ∅)))
             (cp "context") (cp "response") sample_state)
             (cp "raw") 1%nat eq_refl)) _ 1%nat eq_refl) _) (cp "Yes") _).
    + vm_compute. reflexivity.
    + vm_compute. reflexivity.
Defined.

Lemma fields_set_once_witness :
  examples sample_instance = get_few_shot_examples (cp "7f3a5c0e9d10")
  /\ self (evaluate_all sample_unicode_lower nat
             (canned_client (Returns (cp "raw")) (Returns verdict_no))
             [(cp "context", cp "response"); (cp "second", cp "call")]
             sample_state)
     = sample_instance.
Proof.
  destruct (fields_set_once sample_unicode_lower nat
              (canned_client (Returns (cp "raw")) (Returns verdict_no))
              (PStr (cp "gpt-3.5-turbo")) (PStr (cp "sk-key"))
              (cp "7f3a5c0e9d10") (0%nat, [])
              (0%nat, [Constructed (PStr (cp "gpt-3.5-turbo"))
                         (PStr (cp "sk-key"))])
              sample_instance eq_refl) as [Hexamples [_ [Hall _]]].
  split; [exact Hexamples |].
  apply (Hall 0%nat []).
Defined.

Lemma examples_add_no_field_witness :
  shows_no_field (get_few_shot_examples (cp "7f3a5c0e9d10")).
Proof.
  apply (examples_add_no_field (cp "7f3a5c0e9d10")). reflexivity.
Defined.

(** ** The further properties at sample inputs *)

Lemma verdict_score_iff_witness :
  (verdict_to_bool sample_unicode_lower (PStr (cp "NO"))
   = Returns (PBool true)
   <-> equals_ignoring_case (cp "NO") (cp "no") = true)
  /\ (verdict_to_bool sample_unicode_lower (PStr (cp " No"))
      = Returns (PBool true)
      <-> equals_ignoring_case (cp " No") (cp "no") = true).
Proof.
  split.
  - exact (proj1 (verdict_score_iff sample_unicode_lower
                    sample_unicode_lower_not_verdict (cp "NO"))).
  - exact (proj1 (verdict_score_iff sample_unicode_lower
                    sample_unicode_lower_not_verdict (cp " No"))).
Defined.

Lemma evaluate_is_compute_witness :
  fst (evaluate sample_unicode_lower nat
         (canned_client (Returns (cp "raw")) (Returns verdict_yes))
         (cp "context") (cp "response") sample_state)
  = compute sample_unicode_lower verdict_yes
  /\ env (snd (evaluate sample_unicode_lower nat
                 (canned_client (Returns (cp "raw")) (Returns verdict_yes))
                 (cp "context") (cp "response") sample_state))
     = 1%nat.
Proof.
  apply (evaluate_is_compute sample_unicode_lower nat
           (canned_client (Returns (cp "raw")) (Returns verdict_yes))
           (cp "context") (cp "response") sample_state (cp "raw")
           1%nat 1%nat verdict_yes).
  - reflexivity.
  - reflexivity.
Defined.

Lemma evaluate_rejects_non_string_verdict_witness :
  fst (evaluate sample_unicode_lower nat
         (canned_client (Returns (cp "raw"))
            (Returns (<[cp "verdict" := PBool false]> ∅)))
         (cp "context") (cp "response") sample_state)
  = Raises (AttributeError (type_name (PBool false)) (cp "lower")).
Proof.
  refine (proj1 (evaluate_rejects_non_string_verdict sample_unicode_lower nat
                   (canned_client (Returns (cp "raw"))
                      (Returns (<[cp "verdict" := PBool false]> ∅)))
                   (cp "context") (cp "response") sample_state (cp "raw")
                   1%nat 1%nat (<[cp "verdict" := PBool false]> ∅)
                   (PBool false) eq_refl eq_refl _ eq_refl)).
  vm_compute. reflexivity.
Defined.

Lemma evaluate_returns_only_well_formed_witness :
  is_score (PBool true) = true
  /\ exists (raw : str) (w1 w2 : nat) (faith_eval : gmap str pyval)
       (verdict : str),
       get_completion_from_messages
         (canned_client (Returns (cp "raw")) (Returns verdict_no))
         (openAIcompletion (self sample_state))
         (messages_for (cp "context") (cp "response")
            (examples (self sample_state)))
         (env sample_state)
       = (Returns raw, w1)
       /\ extract_json_from_response
            (canned_client (Returns (cp "raw")) (Returns verdict_no))
            (openAIcompletion (self sample_state)) raw w1
          = (Returns faith_eval, w2)
       /\ faith_eval !! cp "verdict" = Some (PStr verdict)
       /\ faith_eval !! cp "explanation"
          = Some (PStr
                    (cp "The context does not substantiate the response."))
       /\ verdict_to_bool sample_unicode_lower (PStr verdict)
          = Returns (PBool true).
Proof.
  apply (evaluate_returns_only_well_formed sample_unicode_lower nat
           (canned_client (Returns (cp "raw")) (Returns verdict_no))
           (cp "context") (cp "response") sample_state).
  vm_compute. reflexivity.
Defined.

Lemma prompt_depends_on_address_witness :
  get_few_shot_examples (cp "7f3a5c0e9d10")
  <> get_few_shot_examples (cp "7f3a5c0e9d58").
Proof.
  refine (proj1 (prompt_depends_on_address (cp "7f3a5c0e9d10")
                   (cp "7f3a5c0e9d58") _)).
  intros E. vm_compute in E. discriminate E.
Defined.

(** ** The user message and the result of the example

    The template itself says [(Yes/No)], so the result [No] of the example
    occurs in every rendered user message, here in the one for an empty
    context and an empty response, although it does not occur in the text
    of the examples. *)
Lemma rendered_prompt_shows_No :
  exists prompt : str,
    user_message_of [] [] (get_few_shot_examples (cp "7f3a5c0e9d10"))
    = Returns prompt
    /\ In (cp "No") (FewShotExampleFaithfulness.shown_values example1)
    /\ substring (cp "No") prompt
    /\ ~ shows_no_field prompt.
Proof.
  exists (rendered [] [] (get_few_shot_examples (cp "7f3a5c0e9d10"))).
  assert (Hsub : substring (cp "No")
                   (rendered [] [] (get_few_shot_examples (cp "7f3a5c0e9d10")))).
  { apply is_substring_sound. vm_compute. reflexivity. }
  assert (Hin : In (cp "No")
                  (FewShotExampleFaithfulness.shown_values example1)).
  { right. right. left. reflexivity. }
  split; [apply format_user_message |].
  split; [exact Hin |]. split; [exact Hsub |].
  intros Hno. unfold shows_no_field in Hno.
  rewrite Forall_forall in Hno.
  apply (Hno (cp "No")); [apply list_elem_of_In; exact Hin | exact Hsub].
Qed.
